(** * The private star-registry blockchain (project1-private-blockchain)

    A shallow embedding of [src/blockchain.js]: the [Blockchain] class with
    its chain array and height counter, [_addBlock], the ownership challenge
    [requestMessageOwnershipVerification], [submitStar] and [validateChain].

    JavaScript objects are modelled by records, the mutable [this] by a
    state that every method threads, [throw] / [try]-[catch] by a result
    type whose failures keep the state reached so far (JavaScript does not
    roll mutations back when an exception is raised).  The libraries the
    class imports (crypto-js, bitcoinjs-message) and [JSON.stringify] are
    parameters of the development. *)

From Stdlib Require Import ZArith String Ascii List Bool Lia.
Import ListNotations.

Local Open Scope Z_scope.

(** ** The JavaScript built-ins used by the class *)

Module JS.

(** The character of a decimal digit [0 <= d < 10]. *)
Definition digit (d : Z) : ascii := ascii_of_N (48 + Z.to_N d).

(** Decimal digits of a non-negative integer, most significant first,
    pushed in front of [acc]. *)
Fixpoint digits (fuel : nat) (n : Z) (acc : string) : string :=
  match fuel with
  | O => acc
  | S fuel' =>
      let acc' := String (digit (n mod 10)) acc in
      if n <? 10 then acc' else digits fuel' (n / 10) acc'
  end.

(** A number never has more decimal digits than binary ones. *)
Definition digits_fuel (n : Z) : nat := S (Z.to_nat (Z.log2 n)).

(** [Number.prototype.toString()] on an integer-valued number, as
    [Date.prototype.getTime()] returns them. *)
Definition Number_toString (n : Z) : string :=
  if n <? 0
  then String "-" (digits (digits_fuel (- n)) (- n) EmptyString)
  else digits (digits_fuel n) n EmptyString.

(** The number a string of decimal digits denotes, if it is one. *)
Definition digit_value (c : ascii) : option Z :=
  let code := Z.of_N (N_of_ascii c) in
  if (48 <=? code) && (code <=? 57) then Some (code - 48) else None.

Fixpoint decimal_value_from (acc : Z) (s : string) : option Z :=
  match s with
  | EmptyString => Some acc
  | String c s' =>
      match digit_value c with
      | Some d => decimal_value_from (10 * acc + d) s'
      | None => None
      end
  end.

Definition decimal_value (s : string) : option Z := decimal_value_from 0 s.

(** [String.prototype.slice(beginIndex, endIndex)]: negative indices count
    from the end, everything is clamped to the string. *)
Definition String_slice (s : string) (beginIndex endIndex : Z) : string :=
  let len := Z.of_nat (String.length s) in
  let clamp i := if i <? 0 then Z.max (len + i) 0 else Z.min i len in
  let from := clamp beginIndex in
  let to := clamp endIndex in
  substring (Z.to_nat from) (Z.to_nat (to - from)) s.

(** [String.prototype.concat(...parts)]. *)
Definition String_concat (s : string) (parts : list string) : string :=
  fold_left String.append parts s.

(** [new Date().getTime().toString().slice(0, -3)]: the clock reading in
    milliseconds, printed, without its last three characters. *)
Definition timestamp (now : Z) : string :=
  String_slice (Number_toString now) 0 (-3).

(** [String.prototype.split(separator)] for a separator of one
    character: the pieces between its occurrences, empty ones included;
    a string without the separator is its own single piece. *)
Fixpoint String_split (separator : ascii) (s : string) : list string :=
  match s with
  | EmptyString => [EmptyString]
  | String c s' =>
      if Ascii.eqb c separator
      then EmptyString :: String_split separator s'
      else
        match String_split separator s' with
        | piece :: pieces => String c piece :: pieces
        | [] => [String c EmptyString]
        end
  end.

(** Whether a character occurs in a string. *)
Fixpoint String_includes (c : ascii) (s : string) : bool :=
  match s with
  | EmptyString => false
  | String c' s' => Ascii.eqb c' c || String_includes c s'
  end.

End JS.

(** ** block.js: the Block class *)

Module BlockClass.

Section Fields.
Variable Star : Type.

(** The two objects the chain hands to [new BlockClass.Block(data)]. *)
Inductive Data : Type :=
| Genesis (data : string)                (* { data: 'Genesis Block' } *)
| Owned (owner : string) (star : Star).  (* { owner: address, star: star } *)

(** Modelled from the spec: block.js is not part of the sources at hand.
    A block carries its payload, and a position, a creation time, the
    previous block's hash and its own hash, all left unset ([None])
    until the chain assigns them. *)
Record Block : Type := mkBlock {
  hash : option string;
  height : option Z;
  body : Data;
  time : option string;
  previousBlockHash : option string
}.
End Fields.

Arguments Genesis {Star} data.
Arguments Owned {Star} owner star.
Arguments mkBlock {Star} hash height body time previousBlockHash.
Arguments hash {Star} b.
Arguments height {Star} b.
Arguments body {Star} b.
Arguments time {Star} b.
Arguments previousBlockHash {Star} b.

(** What the class requires from outside: the digest of crypto-js, the
    serialisation of a block ([None] when [JSON.stringify] throws, as it
    does on a BigInt or on a cyclic object) and the signature check of
    bitcoinjs-message ([None] when it throws on malformed input). *)
Class External (Star : Type) : Type := {
  SHA256 : string -> string;
  JSON_stringify : Block Star -> option string;
  bitcoinMessage_verify : string -> string -> string -> option bool
}.

Section Methods.
Context {Star : Type} {E : External Star}.

(** Modelled from the spec: the constructor of the missing block.js
    keeps the payload and leaves every other field unset. *)
Definition new (data : Data Star) : Block Star :=
  mkBlock None None data None None.

Definition set_hash (b : Block Star) (h : option string) : Block Star :=
  mkBlock h (height b) (body b) (time b) (previousBlockHash b).
Definition set_height (b : Block Star) (n : Z) : Block Star :=
  mkBlock (hash b) (Some n) (body b) (time b) (previousBlockHash b).
Definition set_time (b : Block Star) (t : string) : Block Star :=
  mkBlock (hash b) (height b) (body b) (Some t) (previousBlockHash b).
Definition set_previousBlockHash (b : Block Star) (h : option string)
  : Block Star :=
  mkBlock (hash b) (height b) (body b) (time b) h.

(** Modelled from the spec: the Canonical Hasher of the missing block.js,
    the digest of a block's fields other than [hash] (position, time,
    previous hash, payload), the [hash] field being unset. *)
Definition hasher (b : Block Star) : option string :=
  option_map SHA256 (JSON_stringify (set_hash b None)).

Definition option_string_eqb (x y : option string) : bool :=
  match x, y with
  | Some a, Some b => String.eqb a b
  | None, None => true
  | _, _ => false
  end.

(** Modelled from the spec: [validate()] of the missing block.js
    recomputes the hasher over the block's current fields and tells
    whether the result is the stored hash. *)
Definition validate (b : Block Star) : bool :=
  match hasher b with
  | Some h => option_string_eqb (hash b) (Some h)
  | None => false
  end.

(** Modelled from the spec: [getBData()] of the missing block.js decodes
    the payload; the genesis sentinel decodes to no ownership data. *)
Definition getBData (b : Block Star) : option (string * Star) :=
  match body b with
  | Genesis _ => None
  | Owned owner star => Some (owner, star)
  end.
End Methods.

End BlockClass.

(** ** blockchain.js: the Blockchain class *)

Module Blockchain.
Import BlockClass.

(** [new Error(message)]. *)
Inductive Error : Type := mkError (message : string).

(** How a call ends: with a value, or with a thrown error (for an [async]
    method: a promise that resolves, or one that rejects). *)
Inductive result (A : Type) : Type :=
| Ok (a : A)
| Throw (e : Error).
Arguments Ok {A} a.
Arguments Throw {A} e.

Section Class.
Context {Star : Type} {E : External Star}.

(** [this]: the chain array and the height counter. *)
Record Blockchain : Type := mkBlockchain {
  chain : list (Block Star);
  height : Z
}.

(** A method body: it runs on [this] and leaves a result and the
    updated [this]; an error does not undo the updates made before it. *)
Definition M (A : Type) : Type := Blockchain -> result A * Blockchain.

Definition ret {A} (a : A) : M A := fun self => (Ok a, self).
Definition throw {A} (e : Error) : M A := fun self => (Throw e, self).
Definition bind {A B} (m : M A) (k : A -> M B) : M B :=
  fun self =>
    match m self with
    | (Ok a, self') => k a self'
    | (Throw e, self') => (Throw e, self')
    end.
Definition try_catch {A} (m : M A) (handler : Error -> M A) : M A :=
  fun self =>
    match m self with
    | (Ok a, self') => (Ok a, self')
    | (Throw e, self') => handler e self'
    end.
Definition get : M Blockchain := fun self => (Ok self, self).
Definition put (self' : Blockchain) : M unit := fun _ => (Ok tt, self').
(** A built-in that may throw a TypeError of its own. *)
Definition builtin {A} (what : string) (r : option A) : M A :=
  match r with
  | Some a => ret a
  | None => throw (mkError what)
  end.

Notation "x <- m ;; k" := (bind m (fun x => k))
  (at level 61, m at next level, right associativity).
Notation "m ;;; k" := (bind m (fun _ => k))
  (at level 61, right associativity).

(** [getChainHeight()]. *)
Definition getChainHeight : M Z :=
  self <- get ;; ret (height self).

(** [_addBlock(block)], at clock reading [now] (milliseconds).  Both
    callers pass a block they have just constructed, so the block is a
    value of its own and not an alias of a block of the chain. *)
Definition _addBlock (block : Block Star) (now : Z) : M (Block Star) :=
  try_catch
    (self <- get ;;
     let len := Z.of_nat (length (chain self)) in
     let block := set_height block len in
     put (mkBlockchain (chain self) len) ;;;
     let block := set_time block (JS.timestamp now) in
     block <-
       (if 0 <? len
        then
          previous <- builtin "TypeError"
                        (nth_error (chain self) (Z.to_nat (len - 1))) ;;
          ret (set_previousBlockHash block (hash previous))
        else ret block) ;;
     text <- builtin "TypeError" (JSON_stringify block) ;;
     let block := set_hash block (Some (SHA256 text)) in
     self <- get ;;
     put (mkBlockchain (chain self ++ [block]) (height self)) ;;;
     ret block)
    (fun error => throw (mkError "Error adding block!")).

(** [initializeChain()]: the error of a failed genesis append is logged
    and dropped. *)
Definition initializeChain (now : Z) : M unit :=
  self <- get ;;
  if height self =? -1
  then
    let block := new (Genesis "Genesis Block") in
    try_catch (_addBlock block now ;;; ret tt) (fun error => ret tt)
  else ret tt.

(** [constructor()]: [_addBlock] never awaits, so the genesis block is
    in place when the constructor returns. *)
Definition constructor (now : Z) : Blockchain :=
  snd (initializeChain now (mkBlockchain [] (-1))).

(** [requestMessageOwnershipVerification(address)]. *)
Definition requestMessageOwnershipVerification
    (address : string) (now : Z) : M string :=
  ret (JS.String_concat address [":"; JS.timestamp now; ":starRegistry"]%string).

(** The [try] block of [submitStar]. *)
Definition submitStar_try (address message signature : string) (star : Star)
    (now : Z) : M (Block Star) :=
  verified <- builtin "Error"
                (bitcoinMessage_verify message address signature) ;;
  if (verified : bool)
  then
    result <- _addBlock (new (Owned address star)) now ;;
    ret result
  else throw (mkError "Error in verifying submitted message!").

(** [submitStar(address, message, signature, star)]: whatever the [try]
    block throws is replaced by one error. *)
Definition submitStar (address message signature : string) (star : Star)
    (now : Z) : M (Block Star) :=
  try_catch
    (submitStar_try address message signature star now)
    (fun error => throw (mkError "Error registering new Block!")).

(** [validateChain()]: the callbacks of [chain.map] push their results
    in chain order, as the promises of [validate()] are settled when
    they are awaited. *)
Definition validateChain : M (list bool) :=
  try_catch
    (self <- get ;;
     let errorLog := map validate (chain self) in
     ret errorLog)
    (fun error => throw (mkError "Error validating chain!")).

(** A call of the public interface that can change the ledger. *)
Inductive Call : Type :=
| SubmitStar (address message signature : string) (star : Star) (now : Z).

Definition exec (self : Blockchain) (c : Call) : Blockchain :=
  match c with
  | SubmitStar address message signature star now =>
      snd (submitStar address message signature star now self)
  end.

(** The ledger after construction at [start] and the calls [calls]. *)
Definition run (start : Z) (calls : list Call) : Blockchain :=
  fold_left exec calls (constructor start).

(** Hash linkage and gapless positions of a chain. *)
Definition linked (c : list (Block Star)) : Prop :=
  forall (i : nat) (b : Block Star),
    nth_error c i = Some b ->
    BlockClass.height b = Some (Z.of_nat i) /\
    (forall p, nth_error c (i - 1) = Some p -> (0 < i)%nat ->
               previousBlockHash b = hash p).

(** The block [_addBlock] hashes: position, time and linkage assigned,
    [hash] still as the caller left it. *)
Definition prepared (self : Blockchain) (block : Block Star) (now : Z)
  : Block Star :=
  let len := Z.of_nat (length (chain self)) in
  let block := set_time (set_height block len) (JS.timestamp now) in
  match chain self with
  | [] => block
  | _ => set_previousBlockHash block
           (match nth_error (chain self) (Z.to_nat (len - 1)) with
            | Some previous => hash previous
            | None => None
            end)
  end.

(** The block [_addBlock] pushes when the serialisation goes through. *)
Definition sealed (self : Blockchain) (block : Block Star) (now : Z)
    (text : string) : Block Star :=
  set_hash (prepared self block now) (Some (SHA256 text)).

(** The stored height is the position of the last block. *)
Definition sound (self : Blockchain) : Prop :=
  height self = Z.of_nat (length (chain self)) - 1.

(** Every block carries the hash the hasher gives for its other
    fields. *)
Definition self_hashed (c : list (Block Star)) : Prop :=
  forall b, In b c -> exists h, hash b = Some h /\ hasher b = Some h.

(** The challenge of the ownership protocol: identity, unix time in
    seconds and the domain tag, separated by colons. *)
Definition challenge (identity : string) (seconds : Z) : string :=
  (identity ++ ":" ++ JS.Number_toString seconds ++ ":starRegistry")%string.

(** [getBlockByHash(hash)]: the first block whose hash is the string
    [hash], or [undefined] ([None]) when the filter keeps nothing. *)
Definition getBlockByHash (h : string) : M (option (Block Star)) :=
  try_catch
    (self <- get ;;
     let result :=
       hd_error
         (filter (fun block => option_string_eqb (hash block) (Some h))
            (chain self)) in
     ret result)
    (fun error => throw (mkError "Error in getting block by hash!")).

(** [p.height === height], for a number [height]. *)
Definition height_is (n : Z) (p : Block Star) : bool :=
  match BlockClass.height p with
  | Some k => k =? n
  | None => false
  end.

(** [getBlockByHeight(height)]: the first block whose height is the number
    [height], or [null] ([None]). *)
Definition getBlockByHeight (n : Z) : M (option (Block Star)) :=
  self <- get ;;
  let block := hd_error (filter (height_is n) (chain self)) in
  match block with
  | Some b => ret (Some b)
  | None => ret None
  end.

(** [getStarsByWalletAddress(address)]: the decoded payloads of the chain,
    in chain order (the promises of [getBData()] are settled when they are
    awaited), those without data left out, then those of the owner
    [address].  A payload [{ owner, star }] is a pair. *)
Definition getStarsByWalletAddress (address : string)
  : M (list (string * Star)) :=
  try_catch
    (self <- get ;;
     let ownerStarsData :=
       flat_map
         (fun block =>
            match getBData block with
            | Some result => [result]
            | None => []
            end)
         (chain self) in
     let stars :=
       filter (fun data => String.eqb (fst data) address) ownerStarsData in
     ret stars)
    (fun error => throw (mkError "Error in getting block by wallet address")).

(** A payload whose block [JSON.stringify] always accepts. *)
Definition serialises (d : Data Star) : Prop :=
  forall b : Block Star, body b = d -> JSON_stringify b <> None.

(** The payload a call asks to register. *)
Definition payload (c : Call) : Data Star :=
  match c with
  | SubmitStar address _ _ star _ => Owned address star
  end.

(** Whether the signature check lets a call through. *)
Definition accepted (c : Call) : bool :=
  match c with
  | SubmitStar address message signature _ _ =>
      match bitcoinMessage_verify message address signature with
      | Some true => true
      | _ => false
      end
  end.
End Class.

Arguments Blockchain Star : clear implicits.
Arguments Call Star : clear implicits.

End Blockchain.

(** ** A concrete instance of the outside world, to run the class on *)

Module Sample.
Import BlockClass Blockchain.
Local Open Scope string_scope.

(** A star as the registry's clients send it, [{ dec, ra, story }], and a
    value [JSON.stringify] refuses: a BigInt. *)
Inductive star : Type :=
| Coordinates (dec ra story : string)
| BigInt (n : Z).

Definition quoted (s : string) : string :=
  String (ascii_of_N 34) (s ++ String (ascii_of_N 34) EmptyString).

Definition member (key value : string) : string :=
  quoted key ++ ":" ++ value.

Definition json_string (o : option string) : string :=
  match o with
  | Some s => quoted s
  | None => "null"
  end.

Definition json_number (o : option Z) : string :=
  match o with
  | Some n => JS.Number_toString n
  | None => "null"
  end.

Definition json_data (d : Data star) : option string :=
  match d with
  | Genesis data => Some ("{" ++ member "data" (quoted data) ++ "}")
  | Owned owner (Coordinates dec ra story) =>
      Some ("{" ++ member "owner" (quoted owner) ++ ","
                ++ member "star"
                     ("{" ++ member "dec" (quoted dec) ++ ","
                          ++ member "ra" (quoted ra) ++ ","
                          ++ member "story" (quoted story) ++ "}")
                ++ "}")
  | Owned owner (BigInt _) => None
  end.

(** The text of a block, or nothing where its payload holds a BigInt. *)
Definition stringify (b : Block star) : option string :=
  match json_data (body b) with
  | Some data =>
      Some ("{" ++ member "hash" (json_string (hash b)) ++ ","
                ++ member "height" (json_number (BlockClass.height b)) ++ ","
                ++ member "body" data ++ ","
                ++ member "time" (json_string (time b)) ++ ","
                ++ member "previousBlockHash"
                     (json_string (previousBlockHash b))
                ++ "}")
  | None => None
  end.

(** A 32-bit polynomial checksum, printed: it stands for the digest. *)
Fixpoint checksum (s : string) (acc : Z) : Z :=
  match s with
  | EmptyString => acc
  | String c s' =>
      checksum s' ((acc * 31 + Z.of_N (N_of_ascii c)) mod 4294967296)
  end.

Definition digest (s : string) : string := JS.Number_toString (checksum s 7).

(** A signature is an empty string (malformed: the check throws), or it
    is the signer's address in front of the message, or it is wrong. *)
Definition check (message address signature : string) : option bool :=
  if signature =? "" then None
  else Some (signature =? address ++ "/" ++ message).

#[export] Instance world : External star :=
  {| SHA256 := digest;
     JSON_stringify := stringify;
     bitcoinMessage_verify := check |}.

Definition address1 : string := "1LPpX52fiwusu2VWzy6UDm9qxbQbPt9wMY".
Definition message1 : string :=
  "1LPpX52fiwusu2VWzy6UDm9qxbQbPt9wMY:1645341645:starRegistry".
Definition signature1 : string := address1 ++ "/" ++ message1.
Definition star1 : star :=
  Coordinates "68 52 56.9" "16h 29m 1.0s" "Testing the story 4".

(** The clock when the chain is created, when the message above is
    issued, ten seconds later and six minutes later. *)
Definition created : Z := 1645341600000.
Definition issued : Z := 1645341645123.
Definition soon : Z := 1645341655000.
Definition late : Z := 1645342005000.

(** A new chain, and the chain after one star was registered. *)
Definition ledger0 : Blockchain star := constructor created.
Definition ledger1 : Blockchain star :=
  run created [SubmitStar address1 message1 signature1 star1 soon].

Definition genesis1 : Block star :=
  nth 0 (chain ledger1) (new (Genesis "")).
Definition block1 : Block star :=
  nth 1 (chain ledger1) (new (Genesis "")).

(** The same chain after [chain[0].hash = 'forged']. *)
Definition tampered1 : Blockchain star :=
  mkBlockchain [set_hash genesis1 (Some "forged"); block1] 1.

(** The same chain after [chain[0]] was replaced by the genesis block of
    another chain, a block that passes its own check. *)
Definition relinked1 : Blockchain star :=
  mkBlockchain [nth 0 (chain (constructor late)) (new (Genesis "")); block1] 1.


(** A second claimant and a second star, and the chain after three
    registrations: two by the first address, one by the second. *)
Definition address2 : string := "1ED5FnwxN4XuXPH8NM8Ge2MbeczGeDhT1c".
Definition message2 : string :=
  "1ED5FnwxN4XuXPH8NM8Ge2MbeczGeDhT1c:1645341645:starRegistry".
Definition signature2 : string := address2 ++ "/" ++ message2.
Definition star2 : star := Coordinates "1 1 1" "1h 1m 1.0s" "1Testing the story 1".

Definition calls3 : list (Call star) :=
  [SubmitStar address1 message1 signature1 star1 soon;
   SubmitStar address2 message2 signature2 star1 soon;
   SubmitStar address1 message1 signature1 star2 late].
Definition ledger3 : Blockchain star := run created calls3.

End Sample.

(** * Properties *)

(** ** Strings and numbers *)

Lemma append_assoc (s t u : string) :
  ((s ++ t) ++ u)%string = (s ++ (t ++ u))%string.
Proof.
  induction s as [|c s IH]; simpl.
  - reflexivity.
  - now rewrite IH.
Qed.

Lemma length_append (s t : string) :
  String.length (s ++ t) = (String.length s + String.length t)%nat.
Proof.
  induction s as [|c s IH]; simpl; [reflexivity | now rewrite IH].
Qed.

Lemma substring_prefix (s t : string) :
  substring 0 (String.length s) (s ++ t) = s.
Proof.
  induction s as [|c s IH]; simpl.
  - destruct t; reflexivity.
  - now rewrite IH.
Qed.

(** Dropping the last three characters of a string that has them. *)
Lemma slice_drop3 (s t : string) :
  String.length t = 3%nat -> JS.String_slice (s ++ t) 0 (-3) = s.
Proof.
  intros Ht. unfold JS.String_slice.
  rewrite length_append, Ht.
  replace (0 <? 0) with false by reflexivity.
  replace (-3 <? 0) with true by reflexivity.
  rewrite Z.min_l by lia.
  rewrite Z.max_l by lia.
  replace (Z.to_nat 0) with 0%nat by reflexivity.
  replace (Z.to_nat (Z.of_nat (String.length s + 3) + -3 - 0))
    with (String.length s) by lia.
  apply substring_prefix.
Qed.

Lemma digits_acc (fuel : nat) :
  forall n acc,
    JS.digits fuel n acc = (JS.digits fuel n EmptyString ++ acc)%string.
Proof.
  induction fuel as [|fuel IH]; intros n acc; simpl.
  - reflexivity.
  - destruct (n <? 10).
    + reflexivity.
    + rewrite IH. rewrite (IH _ (String _ EmptyString)).
      now rewrite append_assoc.
Qed.

(** Fuel beyond the number of digits changes nothing. *)
Lemma digits_more_fuel (f : nat) :
  forall n g acc,
    0 <= n < 10 ^ Z.of_nat (S f) -> (S f <= g)%nat ->
    JS.digits (S f) n acc = JS.digits g n acc.
Proof.
  induction f as [|f IH]; intros n g acc Hn Hg.
  - destruct g as [|g]; [lia|]. simpl.
    replace (n <? 10) with true; [reflexivity|].
    symmetry. apply Z.ltb_lt. change (10 ^ Z.of_nat 1) with 10 in Hn. lia.
  - destruct g as [|g]; [lia|].
    cbn [JS.digits]. destruct (n <? 10) eqn:Hlt; [reflexivity|].
    apply IH; [|lia].
    apply Z.ltb_ge in Hlt.
    rewrite Nat2Z.inj_succ, Z.pow_succ_r in Hn by lia.
    split; [apply Z.div_pos; lia|].
    apply Z.div_lt_upper_bound; lia.
Qed.

Lemma digits_fuel_enough (n : Z) :
  0 <= n -> n < 10 ^ Z.of_nat (JS.digits_fuel n).
Proof.
  intros Hn. unfold JS.digits_fuel.
  rewrite Nat2Z.inj_succ, Z2Nat.id by apply Z.log2_nonneg.
  destruct (Z.eq_dec n 0) as [->|Hz].
  - reflexivity.
  - assert (H2 : n < 2 ^ Z.succ (Z.log2 n)) by (apply Z.log2_spec; lia).
    assert (H10 : 2 ^ Z.succ (Z.log2 n) <= 10 ^ Z.succ (Z.log2 n)).
    { apply Z.pow_le_mono_l. lia. }
    lia.
Qed.

Lemma digits_step (f : nat) (n : Z) (acc : string) :
  10 <= n ->
  JS.digits (S f) n acc =
  JS.digits f (n / 10) (String (JS.digit (n mod 10)) acc).
Proof.
  intros Hn. cbn [JS.digits].
  replace (n <? 10) with false by (symmetry; apply Z.ltb_ge; lia).
  reflexivity.
Qed.

(** Any sufficient fuel prints the number as [Number_toString] does. *)
Lemma toString_fuel (n : Z) (f : nat) :
  0 <= n -> n < 10 ^ Z.of_nat (S f) ->
  JS.Number_toString n = JS.digits (S f) n EmptyString.
Proof.
  intros Hn Hf. unfold JS.Number_toString.
  replace (n <? 0) with false by (symmetry; apply Z.ltb_ge; lia).
  pose proof (digits_fuel_enough n Hn) as He.
  unfold JS.digits_fuel in *.
  set (k := Z.to_nat (Z.log2 n)) in *.
  rewrite (digits_more_fuel k n (S (Nat.max k f))); [|lia|lia].
  rewrite (digits_more_fuel f n (S (Nat.max k f))); [|lia|lia].
  reflexivity.
Qed.

(** The printed milliseconds are the printed seconds and three digits. *)
Lemma toString_thousands (n : Z) :
  1000 <= n ->
  JS.Number_toString n =
  (JS.Number_toString (n / 1000) ++
   String (JS.digit ((n / 100) mod 10))
     (String (JS.digit ((n / 10) mod 10))
        (String (JS.digit (n mod 10)) EmptyString)))%string.
Proof.
  intros Hn.
  assert (Hq : 0 <= n / 1000) by (apply Z.div_pos; lia).
  pose proof (digits_fuel_enough (n / 1000) Hq) as He.
  unfold JS.digits_fuel in He.
  set (k := Z.to_nat (Z.log2 (n / 1000))) in *.
  rewrite (toString_fuel (n / 1000) k Hq He).
  rewrite (toString_fuel n (3 + k)).
  - change (3 + k)%nat with (S (S (S k))).
    rewrite digits_step by lia.
    rewrite digits_step by (apply Z.div_le_lower_bound; lia).
    rewrite digits_step
      by (rewrite Z.div_div by lia; apply Z.div_le_lower_bound; lia).
    rewrite !Z.div_div by lia.
    change (10 * 10) with 100. change (100 * 10) with 1000.
    apply (digits_acc (S k)).
  - lia.
  - replace (Z.of_nat (S (3 + k))) with (3 + Z.of_nat (S k)) by lia.
    rewrite Z.pow_add_r by lia. change (10 ^ 3) with 1000.
    pose proof (Z.mul_div_le n 1000 ltac:(lia)).
    pose proof (Z.mod_pos_bound n 1000 ltac:(lia)).
    pose proof (Z.div_mod n 1000 ltac:(lia)). lia.
Qed.

(** The timestamp of a clock reading is its whole seconds, printed. *)
Lemma timestamp_seconds (now : Z) :
  1000 <= now -> JS.timestamp now = JS.Number_toString (now / 1000).
Proof.
  intros Hn. unfold JS.timestamp.
  rewrite (toString_thousands now Hn).
  apply slice_drop3. reflexivity.
Qed.

Lemma digit_value_digit (d : Z) :
  0 <= d < 10 -> JS.digit_value (JS.digit d) = Some d.
Proof.
  intros Hd.
  assert (Hc : d = 0 \/ d = 1 \/ d = 2 \/ d = 3 \/ d = 4 \/
               d = 5 \/ d = 6 \/ d = 7 \/ d = 8 \/ d = 9) by lia.
  repeat (destruct Hc as [->|Hc]; [reflexivity|]). now subst d.
Qed.

Lemma decimal_value_digits (fuel : nat) :
  forall n tail,
    0 <= n < 10 ^ Z.of_nat fuel ->
    JS.decimal_value_from 0 (JS.digits fuel n tail) =
    JS.decimal_value_from n tail.
Proof.
  induction fuel as [|fuel IH]; intros n tail Hn.
  - change (10 ^ Z.of_nat 0) with 1 in Hn.
    assert (n = 0) by lia. now subst n.
  - cbn [JS.digits].
    pose proof (Z.mod_pos_bound n 10 ltac:(lia)) as Hm.
    pose proof (Z.div_mod n 10 ltac:(lia)) as Hdm.
    destruct (n <? 10) eqn:Hlt.
    + apply Z.ltb_lt in Hlt. rewrite Z.mod_small by lia.
      cbn [JS.decimal_value_from]. rewrite digit_value_digit by lia.
      reflexivity.
    + apply Z.ltb_ge in Hlt.
      rewrite Nat2Z.inj_succ, Z.pow_succ_r in Hn by lia.
      rewrite IH.
      * cbn [JS.decimal_value_from]. rewrite digit_value_digit by lia.
        f_equal. lia.
      * split; [apply Z.div_pos; lia|].
        apply Z.div_lt_upper_bound; lia.
Qed.

(** What [Number_toString] prints reads back as the number. *)
Lemma decimal_value_toString (n : Z) :
  0 <= n -> JS.decimal_value (JS.Number_toString n) = Some n.
Proof.
  intros Hn. unfold JS.decimal_value, JS.Number_toString.
  replace (n <? 0) with false by (symmetry; apply Z.ltb_ge; lia).
  rewrite decimal_value_digits.
  - reflexivity.
  - split; [assumption|]. now apply digits_fuel_enough.
Qed.

Example toString_seconds : JS.Number_toString 1645341645 = "1645341645"%string.
Proof. reflexivity. Qed.

Example toString_negative : JS.Number_toString (-42) = "-42"%string.
Proof. reflexivity. Qed.

Example timestamp_of_clock : JS.timestamp 1645341645123 = "1645341645"%string.
Proof. reflexivity. Qed.

Example slice_short : JS.String_slice "12" 0 (-3) = ""%string.
Proof. reflexivity. Qed.

(** ** The ledger *)

Section Ledger.
Import BlockClass Blockchain.
Context {Star : Type} {E : External Star}.

Implicit Types (self : Blockchain Star) (block b : Block Star).

Lemma nth_error_last_position (l : list (Block Star)) :
  l <> [] ->
  exists p, nth_error l (Z.to_nat (Z.of_nat (length l) - 1)) = Some p.
Proof.
  intros Hl.
  destruct (nth_error l (Z.to_nat (Z.of_nat (length l) - 1))) as [p|] eqn:Hp.
  - now exists p.
  - apply nth_error_None in Hp.
    destruct l as [|x l]; [congruence|]. simpl length in Hp. lia.
Qed.

(** [_addBlock], its monadic steps carried out. *)
Lemma _addBlock_eq block now self :
  _addBlock block now self =
  match JSON_stringify (prepared self block now) with
  | Some text =>
      (Ok (sealed self block now text),
       mkBlockchain (chain self ++ [sealed self block now text])
         (Z.of_nat (length (chain self))))
  | None =>
      (Throw (mkError "Error adding block!"),
       mkBlockchain (chain self) (Z.of_nat (length (chain self))))
  end.
Proof.
  unfold _addBlock, sealed, prepared, try_catch, bind, get, put, ret.
  destruct (chain self) as [|x l] eqn:Hc.
  - cbn. destruct (JSON_stringify _); reflexivity.
  - destruct (nth_error_last_position (x :: l)) as [p Hp]; [discriminate|].
    replace (0 <? Z.of_nat (length (x :: l))) with true
      by (symmetry; apply Z.ltb_lt; simpl length; lia).
    rewrite Hp. cbn [builtin ret throw].
    destruct (JSON_stringify _); reflexivity.
Qed.

(** [submitStar], case by case on the signature check. *)
Lemma submitStar_eq address message signature star now self :
  submitStar address message signature star now self =
  match bitcoinMessage_verify message address signature with
  | Some true =>
      match _addBlock (new (Owned address star)) now self with
      | (Ok b, self') => (Ok b, self')
      | (Throw _, self') =>
          (Throw (mkError "Error registering new Block!"), self')
      end
  | _ => (Throw (mkError "Error registering new Block!"), self)
  end.
Proof.
  unfold submitStar, submitStar_try, try_catch, bind at 1.
  destruct (bitcoinMessage_verify message address signature) as [[|]|];
    cbn [builtin ret throw]; try reflexivity.
  unfold bind, ret.
  destruct (_addBlock _ now self) as [[b|e] self']; reflexivity.
Qed.

Lemma validateChain_eq self :
  validateChain self = (Ok (map validate (chain self)), self).
Proof. reflexivity. Qed.

Lemma constructor_eq (start : Z) :
  constructor (E := E) start =
  snd (_addBlock (new (Genesis "Genesis Block")) start (mkBlockchain [] (-1))).
Proof.
  unfold constructor, initializeChain, bind, get, try_catch, ret.
  cbn [Blockchain.height Z.eqb Pos.eqb Z.opp].
  destruct (_addBlock _ start _) as [[b|e] self']; reflexivity.
Qed.

(** *** What the hashed block looks like *)

Lemma prepared_hash self block now :
  hash (prepared self block now) = hash block.
Proof. unfold prepared. destruct (chain self); reflexivity. Qed.

Lemma prepared_body self block now :
  body (prepared self block now) = body block.
Proof. unfold prepared. destruct (chain self); reflexivity. Qed.

Lemma prepared_height self block now :
  BlockClass.height (prepared self block now) =
  Some (Z.of_nat (length (chain self))).
Proof. unfold prepared. destruct (chain self); reflexivity. Qed.

Lemma prepared_previous self block now p :
  nth_error (chain self) (length (chain self) - 1) = Some p ->
  (0 < length (chain self))%nat ->
  previousBlockHash (prepared self block now) = hash p.
Proof.
  intros Hp Hpos. unfold prepared.
  destruct (chain self) as [|x l] eqn:Hc; [simpl in Hpos; lia|].
  replace (Z.to_nat (Z.of_nat (length (x :: l)) - 1))
    with (length (x :: l) - 1)%nat by lia.
  rewrite Hp. reflexivity.
Qed.

Lemma set_hash_unset b : hash b = None -> set_hash b None = b.
Proof. destruct b; simpl; intros ->; reflexivity. Qed.

(** Sealing a block whose hash was unset stores the hasher's digest. *)
Lemma sealed_hasher self block now text :
  hash block = None ->
  JSON_stringify (prepared self block now) = Some text ->
  hash (sealed self block now text) = Some (SHA256 text) /\
  hasher (sealed self block now text) = Some (SHA256 text).
Proof.
  intros Hh Ht. split; [reflexivity|].
  unfold hasher, sealed.
  replace (set_hash (set_hash (prepared self block now) (Some (SHA256 text))) None)
    with (set_hash (prepared self block now) None) by reflexivity.
  rewrite set_hash_unset by (now rewrite prepared_hash).
  now rewrite Ht.
Qed.

(** *** Invariants of the chain *)

Lemma linked_nil : linked (@nil (Block Star)).
Proof. intros i b Hi. destruct i; discriminate. Qed.

Lemma linked_snoc (c : list (Block Star)) b :
  linked c ->
  BlockClass.height b = Some (Z.of_nat (length c)) ->
  (forall p, nth_error c (length c - 1) = Some p -> (0 < length c)%nat ->
             previousBlockHash b = hash p) ->
  linked (c ++ [b]).
Proof.
  intros Hc Hh Hp i x Hi.
  destruct (Nat.lt_ge_cases i (length c)) as [Hlt|Hge].
  - rewrite nth_error_app1 in Hi by assumption.
    destruct (Hc i x Hi) as [Hx Hprev]. split; [assumption|].
    intros p Hp' Hpos. apply Hprev; [|assumption].
    now rewrite nth_error_app1 in Hp' by lia.
  - rewrite nth_error_app2 in Hi by assumption.
    destruct (i - length c)%nat as [|k] eqn:Hk.
    + injection Hi as <-. assert (i = length c) by lia. subst i.
      split; [assumption|]. intros p Hp' Hpos.
      rewrite nth_error_app1 in Hp' by lia. now apply Hp.
    + destruct k; discriminate.
Qed.

Lemma self_hashed_snoc (c : list (Block Star)) b h :
  self_hashed c -> hash b = Some h -> hasher b = Some h ->
  self_hashed (c ++ [b]).
Proof.
  intros Hc Hh Hb x Hx. apply in_app_or in Hx as [Hx|[<-|[]]].
  - now apply Hc.
  - now exists h.
Qed.

(** Appending a block that was just constructed keeps both invariants,
    whether the append goes through or not. *)
Lemma _addBlock_fresh_invariant data now self :
  linked (chain self) -> self_hashed (chain self) ->
  linked (chain (snd (_addBlock (new data) now self))) /\
  self_hashed (chain (snd (_addBlock (new data) now self))).
Proof.
  intros Hl Hs. rewrite _addBlock_eq.
  destruct (JSON_stringify _) as [text|] eqn:Ht; cbn [snd chain].
  - destruct (sealed_hasher self (new data) now text eq_refl Ht) as [Hh Hc].
    split.
    + apply linked_snoc; [assumption| |].
      * apply prepared_height.
      * intros p Hp Hpos. now apply prepared_previous.
    + now apply self_hashed_snoc with (h := SHA256 text).
  - now split.
Qed.

Lemma exec_invariant self (c : Call Star) :
  linked (chain self) -> self_hashed (chain self) ->
  linked (chain (exec self c)) /\ self_hashed (chain (exec self c)).
Proof.
  intros Hl Hs. destruct c as [address message signature star now].
  unfold exec. rewrite submitStar_eq.
  destruct (bitcoinMessage_verify message address signature) as [[|]|];
    try (now split).
  pose proof (_addBlock_fresh_invariant (Owned address star) now self Hl Hs)
    as Hinv.
  destruct (_addBlock _ now self) as [[b|e] self']; exact Hinv.
Qed.

Lemma run_invariant (start : Z) (calls : list (Call Star)) :
  linked (chain (run start calls)) /\ self_hashed (chain (run start calls)).
Proof.
  unfold run.
  assert (H0 : linked (chain (constructor (E := E) start)) /\
               self_hashed (chain (constructor (E := E) start))).
  { rewrite constructor_eq.
    apply _addBlock_fresh_invariant.
    - apply linked_nil.
    - intros b []. }
  revert H0. generalize (constructor (E := E) start).
  induction calls as [|c calls IH]; intros self Hinv; simpl.
  - exact Hinv.
  - apply IH. destruct Hinv. now apply exec_invariant.
Qed.

(** Where every block serialises, the stored height is the position of
    the last block in every ledger the interface can build. *)
Lemma run_sound (start : Z) (calls : list (Call Star)) :
  (forall b, JSON_stringify b <> None) ->
  sound (run start calls).
Proof.
  intros Htotal.
  assert (Hadd : forall block now self,
             sound (snd (_addBlock block now self))).
  { intros block now self. rewrite _addBlock_eq.
    destruct (JSON_stringify _) as [text|] eqn:Ht;
      [|now apply Htotal in Ht].
    unfold sound. cbn [snd chain Blockchain.height].
    rewrite length_app. simpl length. lia. }
  unfold run.
  assert (H0 : sound (constructor (E := E) start))
    by (rewrite constructor_eq; apply Hadd).
  revert H0. generalize (constructor (E := E) start).
  induction calls as [|c calls IH]; intros self Hs; simpl.
  - exact Hs.
  - apply IH. destruct c as [address message signature star now].
    unfold exec. rewrite submitStar_eq.
    destruct (bitcoinMessage_verify message address signature) as [[|]|];
      try exact Hs.
    pose proof (Hadd (new (Owned address star)) now self) as Ha.
    destruct (_addBlock _ now self) as [[b|e] self']; exact Ha.
Qed.

Lemma validate_self_hashed (c : list (Block Star)) :
  self_hashed c -> map validate c = repeat true (length c).
Proof.
  induction c as [|b c IH]; intros Hs; simpl.
  - reflexivity.
  - rewrite IH by (intros x Hx; apply Hs; now right).
    destruct (Hs b (or_introl eq_refl)) as [h [Hh Hc]].
    unfold validate. rewrite Hc, Hh. simpl.
    now rewrite String.eqb_refl.
Qed.

Lemma String_concat_three (a x y z : string) :
  JS.String_concat a [x; y; z] = (a ++ x ++ y ++ z)%string.
Proof.
  unfold JS.String_concat. simpl. now rewrite !append_assoc.
Qed.

(** *** The ownership challenge *)

(** C9.  For every identity string, the message issued by
    [requestMessageOwnershipVerification] is the identity, a colon, the
    clock's unix time in whole seconds, a colon and the tag
    [starRegistry]; the ledger is not touched.  The seconds are printed
    in decimal: the digits read back as the clock's milliseconds divided
    by 1000.  The clock reads milliseconds since the epoch, at least one
    second of them. *)
Theorem requestMessageOwnershipVerification_format
    (address : string) (now : Z) self :
  1000 <= now ->
  requestMessageOwnershipVerification address now self =
  (Ok (address ++ ":" ++ JS.Number_toString (now / 1000) ++ ":starRegistry")%string,
   self) /\
  JS.decimal_value (JS.Number_toString (now / 1000)) = Some (now / 1000).
Proof.
  intros Hnow. split.
  - unfold requestMessageOwnershipVerification, ret.
    rewrite String_concat_three, (timestamp_seconds now Hnow).
    reflexivity.
  - apply decimal_value_toString. apply Z.div_pos; lia.
Qed.

(** *** Submitting a star *)


(** C8 (as amended).  A claim whose signature the verifier rejects is
    refused: the [try] block throws the error of a failed verification,
    the [catch] replaces it, so that the call fails with the error of a
    failed registration, the one every failure of [submitStar] ends in,
    and the ledger, chain and height, is exactly as before. *)
Theorem submitStar_rejects_bad_signature
    self (address message signature : string) (star : Star) (now : Z) :
  bitcoinMessage_verify message address signature = Some false ->
  submitStar_try address message signature star now self =
    (Throw (mkError "Error in verifying submitted message!"), self) /\
  submitStar address message signature star now self =
    (Throw (mkError "Error registering new Block!"), self) /\
  getChainHeight (snd (submitStar address message signature star now self)) =
    (Ok (Blockchain.height self), self).
Proof.
  intros Hv. rewrite submitStar_eq.
  unfold submitStar_try, bind. rewrite Hv.
  repeat split.
Qed.

(** C1 (the code departs from the claim).  [submitStar] never reads the
    time in the message: a claim whose challenge was issued more than
    300 seconds before the clock's reading is registered like any other,
    and its block is appended. *)
Theorem submitStar_stale_challenge_appends
    self (address signature : string) (star : Star) (issued now : Z)
    (text : string) :
  issued + 300 < now / 1000 ->
  bitcoinMessage_verify (challenge address issued) address signature
    = Some true ->
  JSON_stringify (prepared self (new (Owned address star)) now) = Some text ->
  exists b,
    submitStar address (challenge address issued) signature star now self =
      (Ok b, mkBlockchain (chain self ++ [b])
               (Z.of_nat (length (chain self)))) /\
    length (chain self ++ [b]) = S (length (chain self)).
Proof.
  intros _ Hv Ht.
  exists (sealed self (new (Owned address star)) now text).
  rewrite submitStar_eq, Hv, _addBlock_eq, Ht.
  split; [reflexivity|].
  rewrite length_app. simpl. lia.
Qed.

(** *** Appending *)

(** C4 (the code departs from the claim).  When the serialisation of the
    block fails, [_addBlock] throws and pushes nothing, but it has
    already stored the chain's length as the height: on a ledger whose
    height was the position of its last block, the reported height is one
    more than before the failed call. *)
Theorem _addBlock_failure_moves_height self block (now : Z) :
  sound self ->
  JSON_stringify (prepared self block now) = None ->
  exists self',
    _addBlock block now self = (Throw (mkError "Error adding block!"), self') /\
    chain self' = chain self /\
    getChainHeight self' = (Ok (Blockchain.height self + 1), self') /\
    fst (getChainHeight self') <> fst (getChainHeight self).
Proof.
  intros Hsound Ht.
  exists (mkBlockchain (chain self) (Z.of_nat (length (chain self)))).
  rewrite _addBlock_eq, Ht. unfold sound in Hsound.
  repeat split.
  - unfold getChainHeight, bind, get, ret. cbn [Blockchain.height].
    do 2 f_equal. lia.
  - unfold getChainHeight, bind, get, ret. cbn [Blockchain.height fst].
    intros [= Heq]. lia.
Qed.

(** C10.  After construction, when the genesis block was sealed, and
    after every append that succeeds, directly or through [submitStar],
    the stored height is the length of the chain minus one, and
    [getChainHeight] returns the position of the block appended last. *)
Theorem height_is_last_position :
  (forall start : Z,
      JSON_stringify
        (prepared (mkBlockchain [] (-1)) (new (Genesis "Genesis Block")) start)
        <> None ->
      sound (constructor (E := E) start) /\
      length (chain (constructor (E := E) start)) = 1%nat /\
      getChainHeight (constructor (E := E) start) =
        (Ok 0, constructor (E := E) start)) /\
  (forall self block (now : Z) b self',
      _addBlock block now self = (Ok b, self') ->
      sound self' /\
      chain self' = chain self ++ [b] /\
      BlockClass.height b = Some (Blockchain.height self') /\
      getChainHeight self' = (Ok (Z.of_nat (length (chain self')) - 1), self')) /\
  (forall self address message signature (star : Star) (now : Z) b self',
      submitStar address message signature star now self = (Ok b, self') ->
      sound self' /\
      chain self' = chain self ++ [b] /\
      BlockClass.height b = Some (Blockchain.height self')).
Proof.
  assert (Hadd : forall self block (now : Z) b self',
             _addBlock block now self = (Ok b, self') ->
             sound self' /\
             chain self' = chain self ++ [b] /\
             BlockClass.height b = Some (Blockchain.height self') /\
             getChainHeight self' =
               (Ok (Z.of_nat (length (chain self')) - 1), self')).
  { intros self block now b self'. rewrite _addBlock_eq.
    destruct (JSON_stringify _) as [text|]; [|discriminate].
    intros [= <- <-]. unfold sound. cbn [chain Blockchain.height].
    rewrite length_app. simpl length.
    repeat split.
    - lia.
    - unfold sealed. cbn [set_hash BlockClass.height]. apply prepared_height.
    - unfold getChainHeight, bind, get, ret. cbn [Blockchain.height].
      do 2 f_equal. lia. }
  split; [|split].
  - intros start Hg. rewrite constructor_eq, _addBlock_eq.
    destruct (JSON_stringify _) as [text|]; [|congruence].
    cbn [snd]. repeat split.
  - exact Hadd.
  - intros self address message signature star now b self'.
    rewrite submitStar_eq.
    destruct (bitcoinMessage_verify message address signature) as [[|]|];
      try discriminate.
    destruct (_addBlock _ now self) as [[b0|e] s0] eqn:Ha; [|discriminate].
    intros [= <- <-].
    destruct (Hadd _ _ _ _ _ Ha) as (H1 & H2 & H3 & _). now repeat split.
Qed.

(** C5.  Every block of a ledger built by the constructor and any calls
    of [submitStar] stores, as its hash, the digest the hasher gives for
    the block's other fields (position, time, previous hash, payload). *)
Theorem appended_block_hash_is_canonical
    (start : Z) (calls : list (Call Star)) b :
  In b (chain (run start calls)) ->
  exists h,
    hash b = Some h /\
    option_map SHA256
      (JSON_stringify
         (mkBlock None (BlockClass.height b) (body b) (time b)
            (previousBlockHash b))) = Some h.
Proof.
  intros Hb. destruct (run_invariant start calls) as [_ Hs].
  exact (Hs b Hb).
Qed.


(** *** Validating the chain *)

(** C3 (the code departs from the claim).  On a chain that is fully
    consistent, every block hashed as the hasher says and every link
    intact, [validateChain] returns one entry [true] per block: the
    result of each block's own check is logged whether it passed or
    not, so the list is empty only for an empty chain. *)
Theorem validateChain_logs_every_block self :
  linked (chain self) -> self_hashed (chain self) ->
  validateChain self = (Ok (repeat true (length (chain self))), self) /\
  (chain self <> [] -> fst (validateChain self) <> Ok []).
Proof.
  intros _ Hs. rewrite validateChain_eq, (validate_self_hashed _ Hs).
  split; [reflexivity|].
  destruct (chain self) as [|b c]; [congruence|].
  intros _. simpl. discriminate.
Qed.

(** C2 (the code departs from the claim).  [validateChain] logs each
    block's own check and nothing else.  When the hash stored in the
    first block is overwritten, the second block no longer points to the
    hash stored before it, and its entry in the log is still [true]: no
    entry speaks of the link. *)
Theorem validateChain_misses_broken_link
    (g b : Block Star) (rest : list (Block Star)) (forged : string) (n : Z) :
  previousBlockHash b = hash g ->
  hash g <> Some forged ->
  validate b = true ->
  previousBlockHash b <> hash (set_hash g (Some forged)) /\
  validateChain (mkBlockchain (set_hash g (Some forged) :: b :: rest) n) =
    (Ok (validate (set_hash g (Some forged)) :: true :: map validate rest),
     mkBlockchain (set_hash g (Some forged) :: b :: rest) n).
Proof.
  intros Hlink Hforged Hb. split.
  - rewrite Hlink. exact Hforged.
  - rewrite validateChain_eq. cbn [chain map]. now rewrite Hb.
Qed.
End Ledger.

(** ** The properties at work on a concrete chain *)

Section Runs.
Import BlockClass Blockchain Sample.

Example ledger1_log : fst (validateChain ledger1) = Ok [true; true].
Proof. vm_compute. reflexivity. Qed.

Example tampered1_log : fst (validateChain tampered1) = Ok [false; true].
Proof. vm_compute. reflexivity. Qed.

Example relinked1_log :
  fst (validateChain relinked1) = Ok [true; true] /\
  previousBlockHash block1 <> hash (nth 0 (chain relinked1) block1).
Proof. split; vm_compute; [reflexivity | discriminate]. Qed.

Example genesis1_text :
  JSON_stringify (set_hash genesis1 None) =
  Some (String.concat ""
          ["{"; quoted "hash"; ":null,";
           quoted "height"; ":0,";
           quoted "body"; ":{"; quoted "data"; ":"; quoted "Genesis Block"; "},";
           quoted "time"; ":"; quoted "1645341600"; ",";
           quoted "previousBlockHash"; ":null}"])%string.
Proof. vm_compute. reflexivity. Qed.

Lemma requestMessageOwnershipVerification_format_witness :
  1000 <= issued /\
  requestMessageOwnershipVerification address1 issued ledger0 =
    (Ok message1, ledger0) /\
  JS.decimal_value (JS.Number_toString (issued / 1000)) = Some (issued / 1000).
Proof.
  split.
  - unfold issued. lia.
  - apply (requestMessageOwnershipVerification_format address1 issued ledger0).
    unfold issued. lia.
Defined.



Lemma submitStar_rejects_bad_signature_witness :
  bitcoinMessage_verify message1 address1 "forged signature"%string = Some false /\
  submitStar_try address1 message1 "forged signature"%string star1 soon ledger0 =
    (Throw (mkError "Error in verifying submitted message!"%string), ledger0) /\
  submitStar address1 message1 "forged signature"%string star1 soon ledger0 =
    (Throw (mkError "Error registering new Block!"%string), ledger0) /\
  getChainHeight
    (snd (submitStar address1 message1 "forged signature"%string star1 soon ledger0)) =
    (Ok (Blockchain.height ledger0), ledger0).
Proof.
  split; [vm_compute; reflexivity|].
  apply (submitStar_rejects_bad_signature
           ledger0 address1 message1 "forged signature"%string star1 soon).
  vm_compute. reflexivity.
Defined.

(** C8, as first stated, fails: when the verifier rejects the signature
    the caller does not get the error of the failed verification but the
    error of a failed registration, the very error of a call whose
    signature check throws and of one whose append fails. *)
Lemma submitStar_rejects_bad_signature_counterexample :
  bitcoinMessage_verify message1 address1 "forged signature"%string = Some false /\
  fst (submitStar address1 message1 "forged signature"%string star1 soon ledger0)
    <> Throw (mkError "Error in verifying submitted message!"%string) /\
  fst (submitStar address1 message1 "forged signature"%string star1 soon ledger0)
    = Throw (mkError "Error registering new Block!"%string) /\
  bitcoinMessage_verify message1 address1 EmptyString = None /\
  fst (submitStar address1 message1 EmptyString star1 soon ledger0)
    = Throw (mkError "Error registering new Block!"%string) /\
  bitcoinMessage_verify message1 address1 signature1 = Some true /\
  fst (submitStar address1 message1 signature1 (BigInt 10) soon ledger0)
    = Throw (mkError "Error registering new Block!"%string).
Proof.
  repeat split; vm_compute; try reflexivity. discriminate.
Qed.

Lemma submitStar_stale_challenge_appends_witness :
  1645341645 + 300 < late / 1000 /\
  challenge address1 1645341645 = message1 /\
  exists b,
    submitStar address1 (challenge address1 1645341645) signature1 star1 late
      ledger0 =
      (Ok b, mkBlockchain (chain ledger0 ++ [b])
               (Z.of_nat (length (chain ledger0)))) /\
    length (chain ledger0 ++ [b]) = S (length (chain ledger0)).
Proof.
  split; [vm_compute; reflexivity|].
  split; [vm_compute; reflexivity|].
  eapply (submitStar_stale_challenge_appends
            ledger0 address1 signature1 star1 1645341645 late).
  - vm_compute. reflexivity.
  - vm_compute. reflexivity.
  - vm_compute. reflexivity.
Defined.

Lemma _addBlock_failure_moves_height_witness :
  sound ledger0 /\
  JSON_stringify (prepared ledger0 (new (Owned address1 (BigInt 10))) soon) = None /\
  exists self',
    _addBlock (new (Owned address1 (BigInt 10))) soon ledger0 =
      (Throw (mkError "Error adding block!"%string), self') /\
    chain self' = chain ledger0 /\
    getChainHeight self' = (Ok (Blockchain.height ledger0 + 1), self') /\
    fst (getChainHeight self') <> fst (getChainHeight ledger0).
Proof.
  split; [vm_compute; reflexivity|].
  split; [vm_compute; reflexivity|].
  apply (_addBlock_failure_moves_height
           ledger0 (new (Owned address1 (BigInt 10))) soon).
  - vm_compute. reflexivity.
  - vm_compute. reflexivity.
Defined.

Lemma height_is_last_position_witness :
  sound ledger0 /\
  length (chain ledger0) = 1%nat /\
  getChainHeight ledger0 = (Ok 0, ledger0).
Proof.
  apply (proj1 height_is_last_position created).
  vm_compute. discriminate.
Defined.

Lemma appended_block_hash_is_canonical_witness :
  In block1 (chain ledger1) /\
  exists h,
    hash block1 = Some h /\
    option_map SHA256
      (JSON_stringify
         (mkBlock None (BlockClass.height block1) (body block1) (time block1)
            (previousBlockHash block1))) = Some h.
Proof.
  assert (Hin : In block1 (chain ledger1)).
  { vm_compute. right. left. reflexivity. }
  split; [exact Hin|].
  exact (appended_block_hash_is_canonical
           created [SubmitStar address1 message1 signature1 star1 soon]
           block1 Hin).
Defined.


Lemma validateChain_logs_every_block_witness :
  linked (chain ledger1) /\ self_hashed (chain ledger1) /\
  validateChain ledger1 = (Ok (repeat true (length (chain ledger1))), ledger1) /\
  (chain ledger1 <> [] -> fst (validateChain ledger1) <> Ok []).
Proof.
  destruct (run_invariant
              created [SubmitStar address1 message1 signature1 star1 soon])
    as [Hl Hs].
  split; [exact Hl|]. split; [exact Hs|].
  exact (validateChain_logs_every_block ledger1 Hl Hs).
Defined.

Lemma validateChain_misses_broken_link_witness :
  previousBlockHash block1 = hash genesis1 /\
  previousBlockHash block1 <> hash (set_hash genesis1 (Some "forged"%string)) /\
  validateChain tampered1 =
    (Ok (validate (set_hash genesis1 (Some "forged"%string)) :: true :: map validate []),
     tampered1).
Proof.
  split; [vm_compute; reflexivity|].
  apply (validateChain_misses_broken_link genesis1 block1 [] "forged"%string 1).
  - vm_compute. reflexivity.
  - vm_compute. discriminate.
  - vm_compute. reflexivity.
Defined.
End Runs.

(** ** Looking blocks and stars up *)

Section Queries.
Import BlockClass Blockchain.
Context {Star : Type} {E : External Star}.

Implicit Types (self : Blockchain Star) (block b : Block Star).

(** *** Lists: the first element a filter keeps *)

Lemma hd_error_filter_Some {A : Type} (f : A -> bool) (l : list A) (x : A) :
  hd_error (filter f l) = Some x ->
  exists l1 l2,
    l = l1 ++ x :: l2 /\ f x = true /\ (forall y, In y l1 -> f y = false).
Proof.
  induction l as [|a l IH]; simpl; [discriminate|].
  destruct (f a) eqn:Hfa.
  - simpl. intros [= ->]. exists [], l. repeat split; [assumption|].
    intros y [].
  - intros Hx. destruct (IH Hx) as (l1 & l2 & -> & Hfx & Hl1).
    exists (a :: l1), l2. repeat split; [assumption|].
    intros y [<-|Hy]; [assumption|now apply Hl1].
Qed.

Lemma hd_error_filter_None {A : Type} (f : A -> bool) (l : list A) :
  hd_error (filter f l) = None -> forall y, In y l -> f y = false.
Proof.
  induction l as [|a l IH]; simpl; [intros _ y []|].
  destruct (f a) eqn:Hfa; [discriminate|].
  intros Hn y [<-|Hy]; [assumption|now apply IH].
Qed.

Lemma hd_error_filter_first {A : Type} (f : A -> bool) (l1 l2 : list A) (x : A) :
  (forall y, In y l1 -> f y = false) -> f x = true ->
  hd_error (filter f (l1 ++ x :: l2)) = Some x.
Proof.
  intros Hl1 Hx. induction l1 as [|a l1 IH]; simpl.
  - now rewrite Hx.
  - rewrite (Hl1 a (or_introl eq_refl)). apply IH.
    intros y Hy. apply Hl1. now right.
Qed.

Lemma hd_error_filter_In {A : Type} (f : A -> bool) (l : list A) (x : A) :
  In x l -> f x = true -> exists y, hd_error (filter f l) = Some y.
Proof.
  intros Hin Hfx.
  destruct (hd_error (filter f l)) as [y|] eqn:Hh; [now exists y|].
  rewrite (hd_error_filter_None f l Hh x Hin) in Hfx. discriminate.
Qed.

Lemma option_string_eqb_Some (o : option string) (h : string) :
  option_string_eqb o (Some h) = true <-> o = Some h.
Proof.
  destruct o as [a|]; simpl.
  - rewrite String.eqb_eq. split; congruence.
  - split; discriminate.
Qed.

Lemma option_string_eqb_Some_false (o : option string) (h : string) :
  option_string_eqb o (Some h) = false <-> o <> Some h.
Proof.
  rewrite <- option_string_eqb_Some.
  destruct (option_string_eqb o (Some h)); split; congruence.
Qed.

(** *** The methods, their monadic steps carried out *)

Lemma getBlockByHash_eq (h : string) self :
  getBlockByHash h self =
  (Ok (hd_error
         (filter (fun block => option_string_eqb (hash block) (Some h))
            (chain self))),
   self).
Proof. reflexivity. Qed.

Lemma getBlockByHeight_eq (n : Z) self :
  getBlockByHeight n self =
  (Ok (hd_error (filter (height_is n) (chain self))), self).
Proof.
  unfold getBlockByHeight, bind, get, ret.
  destruct (hd_error _); reflexivity.
Qed.

Lemma getStarsByWalletAddress_eq (address : string) self :
  getStarsByWalletAddress address self =
  (Ok (filter (fun data => String.eqb (fst data) address)
         (flat_map
            (fun block =>
               match getBData block with
               | Some result => [result]
               | None => []
               end)
            (chain self))),
   self).
Proof. reflexivity. Qed.

(** What a successful [submitStar] did. *)
Lemma submitStar_Ok address message signature (star : Star) (now : Z)
    self b self' :
  submitStar address message signature star now self = (Ok b, self') ->
  exists text,
    JSON_stringify (prepared self (new (Owned address star)) now) = Some text /\
    b = sealed self (new (Owned address star)) now text /\
    self' = mkBlockchain (chain self ++ [b]) (Z.of_nat (length (chain self))).
Proof.
  rewrite submitStar_eq, _addBlock_eq.
  destruct (bitcoinMessage_verify message address signature) as [[|]|];
    try discriminate.
  destruct (JSON_stringify _) as [text|]; [|discriminate].
  intros [= <- <-]. now exists text.
Qed.

(** What a failed [submitStar] did. *)
Lemma submitStar_Throw address message signature (star : Star) (now : Z)
    self e self' :
  submitStar address message signature star now self = (Throw e, self') ->
  e = mkError "Error registering new Block!" /\ chain self' = chain self.
Proof.
  rewrite submitStar_eq, _addBlock_eq.
  destruct (bitcoinMessage_verify message address signature) as [[|]|];
    try (intros [= <- <-]; now split).
  destruct (JSON_stringify _) as [text|]; [discriminate|].
  intros [= <- <-]. now split.
Qed.

Lemma run_snoc (start : Z) (calls : list (Call Star)) (c : Call Star) :
  run start (calls ++ [c]) = exec (run start calls) c.
Proof. unfold run. now rewrite fold_left_app. Qed.

Lemma sealed_body self block (now : Z) (text : string) :
  body (sealed self block now text) = body block.
Proof. unfold sealed. cbn [set_hash body]. apply prepared_body. Qed.

(** In a chain whose blocks carry their index, counted from [k], as
    height, the first block of height [n] is the one at index [n - k]. *)
Lemma filter_height_indexed (c : list (Block Star)) :
  forall k : Z,
    (forall i b, nth_error c i = Some b ->
                 BlockClass.height b = Some (k + Z.of_nat i)) ->
    forall n : Z,
      hd_error (filter (height_is n) c) =
      if n <? k then None else nth_error c (Z.to_nat (n - k)).
Proof.
  induction c as [|x c IH]; intros k Hk n.
  - simpl. destruct (n <? k); [reflexivity|].
    now destruct (Z.to_nat (n - k)).
  - assert (Hx : BlockClass.height x = Some k).
    { rewrite (Hk 0%nat x eq_refl). f_equal. lia. }
    assert (Hc : forall i b, nth_error c i = Some b ->
                             BlockClass.height b = Some (k + 1 + Z.of_nat i)).
    { intros i b Hb. rewrite (Hk (S i) b Hb). f_equal. lia. }
    cbn [filter]. unfold height_is at 1. rewrite Hx.
    destruct (Z.eqb_spec k n) as [->|Hne].
    + cbn [hd_error]. rewrite Z.ltb_irrefl, Z.sub_diag. reflexivity.
    + rewrite (IH (k + 1) Hc n).
      destruct (Z.ltb_spec n k) as [Hlt|Hge].
      * replace (n <? k + 1) with true by (symmetry; apply Z.ltb_lt; lia).
        reflexivity.
      * replace (n <? k + 1) with false by (symmetry; apply Z.ltb_ge; lia).
        replace (Z.to_nat (n - k)) with (S (Z.to_nat (n - (k + 1)))) by lia.
        reflexivity.
Qed.

Lemma filter_height_linked (c : list (Block Star)) (n : Z) :
  linked c ->
  hd_error (filter (height_is n) c) =
  if n <? 0 then None else nth_error c (Z.to_nat n).
Proof.
  intros Hl. rewrite (filter_height_indexed c 0).
  - now rewrite Z.sub_0_r.
  - intros i b Hb. now destruct (Hl i b Hb).
Qed.

(** Every ledger the interface builds has a height of 0 or more. *)
Lemma run_height_nonneg (start : Z) (calls : list (Call Star)) :
  0 <= Blockchain.height (run start calls).
Proof.
  assert (Hadd : forall block now self,
             0 <= Blockchain.height (snd (_addBlock block now self))).
  { intros block now self. rewrite _addBlock_eq.
    destruct (JSON_stringify _); cbn [snd Blockchain.height]; lia. }
  unfold run.
  assert (H0 : 0 <= Blockchain.height (constructor (E := E) start))
    by (rewrite constructor_eq; apply Hadd).
  revert H0. generalize (constructor (E := E) start).
  induction calls as [|c calls IH]; intros self Hs; simpl.
  - exact Hs.
  - apply IH. destruct c as [address message signature star now].
    unfold exec. rewrite submitStar_eq.
    destruct (bitcoinMessage_verify message address signature) as [[|]|];
      try exact Hs.
    pose proof (Hadd (new (Owned address star)) now self) as Ha.
    destruct (_addBlock _ now self) as [[b|e] self']; exact Ha.
Qed.

(** A call leaves the chain as it is or pushes one block at its end. *)
Lemma exec_extends self (c : Call Star) :
  exists suffix,
    chain (exec self c) = chain self ++ suffix /\ (length suffix <= 1)%nat.
Proof.
  destruct c as [address message signature star now]. unfold exec.
  destruct (submitStar address message signature star now self)
    as [[b|e] self'] eqn:Hs; cbn [snd].
  - destruct (submitStar_Ok _ _ _ _ _ _ _ _ Hs) as (text & _ & _ & ->).
    exists [b]. split; [reflexivity|simpl; lia].
  - destruct (submitStar_Throw _ _ _ _ _ _ _ _ Hs) as [_ ->].
    exists []. split; [now rewrite app_nil_r|simpl; lia].
Qed.

(** *** getBlockByHash *)

(** X1.  [getBlockByHash] never throws and leaves the ledger alone.  When
    it finds a block, that block is in the chain, its hash is the string
    asked for and no block before it has that hash; when it finds none,
    no block of the chain has that hash. *)
Theorem getBlockByHash_first_match (h : string) self :
  exists r,
    getBlockByHash h self = (Ok r, self) /\
    match r with
    | Some b =>
        exists before after,
          chain self = before ++ b :: after /\
          hash b = Some h /\
          (forall x, In x before -> hash x <> Some h)
    | None => forall x, In x (chain self) -> hash x <> Some h
    end.
Proof.
  rewrite getBlockByHash_eq.
  destruct (hd_error _) as [b|] eqn:Hr; eexists; (split; [reflexivity|]).
  - destruct (hd_error_filter_Some _ _ _ Hr) as (l1 & l2 & Hc & Hb & Hl1).
    exists l1, l2. repeat split.
    + exact Hc.
    + now apply option_string_eqb_Some.
    + intros x Hx. apply option_string_eqb_Some_false. now apply Hl1.
  - intros x Hx. apply option_string_eqb_Some_false.
    exact (hd_error_filter_None _ _ Hr x Hx).
Qed.

(** X2.  After [submitStar] resolved with a block, looking up that block's
    hash finds a block with this hash, and finds the new block itself
    when no older block of the chain has the same hash. *)
Theorem getBlockByHash_after_submitStar
    address message signature (star : Star) (now : Z) self b self' :
  submitStar address message signature star now self = (Ok b, self') ->
  exists h found,
    hash b = Some h /\
    getBlockByHash h self' = (Ok (Some found), self') /\
    hash found = Some h /\
    ((forall x, In x (chain self) -> hash x <> Some h) -> found = b).
Proof.
  intros Hs. destruct (submitStar_Ok _ _ _ _ _ _ _ _ Hs) as (text & _ & Hb & ->).
  exists (SHA256 text).
  assert (Hh : hash b = Some (SHA256 text)) by (now subst b).
  set (f := fun block : Block Star =>
              option_string_eqb (hash block) (Some (SHA256 text))).
  assert (Hfb : f b = true) by (now apply option_string_eqb_Some).
  destruct (hd_error_filter_In f (chain self ++ [b]) b) as [found Hfound].
  { apply in_or_app. right. now left. }
  { exact Hfb. }
  exists found. rewrite getBlockByHash_eq. cbn [chain]. fold f.
  rewrite Hfound. repeat split.
  - exact Hh.
  - destruct (hd_error_filter_Some _ _ _ Hfound) as (_ & _ & _ & Hf & _).
    now apply option_string_eqb_Some.
  - intros Hold.
    assert (Hfirst : hd_error (filter f (chain self ++ [b])) = Some b).
    { apply hd_error_filter_first; [|exact Hfb].
      intros y Hy. apply option_string_eqb_Some_false. now apply Hold. }
    congruence.
Qed.

(** *** getBlockByHeight *)

(** X3.  On every ledger built by the constructor and calls of
    [submitStar], [getBlockByHeight] returns the block at that index of
    the chain, and [null] for a negative height or one past the end. *)
Theorem getBlockByHeight_is_index
    (start : Z) (calls : list (Call Star)) (n : Z) :
  getBlockByHeight n (run start calls) =
  (Ok (if n <? 0 then None
       else nth_error (chain (run start calls)) (Z.to_nat n)),
   run start calls) /\
  (Z.of_nat (length (chain (run start calls))) <= n ->
   getBlockByHeight n (run start calls) = (Ok None, run start calls)).
Proof.
  destruct (run_invariant start calls) as [Hl _].
  rewrite getBlockByHeight_eq, (filter_height_linked _ n Hl).
  split; [reflexivity|].
  intros Hn. destruct (n <? 0); [reflexivity|].
  replace (nth_error (chain (run start calls)) (Z.to_nat n)) with
    (@None (Block Star)); [reflexivity|].
  symmetry. apply nth_error_None. lia.
Qed.

(** X4.  After [submitStar] resolved with a block on such a ledger, the
    height the ledger reports is that block's position, and
    [getBlockByHeight] at the reported height returns that block. *)
Theorem getBlockByHeight_after_submitStar
    (start : Z) (calls : list (Call Star))
    address message signature (star : Star) (now : Z) b self' :
  submitStar address message signature star now (run start calls)
    = (Ok b, self') ->
  exists n,
    getChainHeight self' = (Ok n, self') /\
    BlockClass.height b = Some n /\
    getBlockByHeight n self' = (Ok (Some b), self').
Proof.
  intros Hs.
  assert (Hrun : self' =
                 run start (calls ++ [SubmitStar address message signature star now])).
  { rewrite run_snoc. unfold exec. now rewrite Hs. }
  destruct (submitStar_Ok _ _ _ _ _ _ _ _ Hs) as (text & _ & Hb & Hself).
  exists (Z.of_nat (length (chain (run start calls)))).
  assert (Hl : linked (chain self')).
  { rewrite Hrun. apply run_invariant. }
  rewrite getBlockByHeight_eq, (filter_height_linked _ _ Hl).
  rewrite Hself at 1 2 3. cbn [chain].
  repeat split.
  - rewrite Hb. unfold sealed. cbn [set_hash BlockClass.height].
    apply prepared_height.
  - replace (Z.of_nat (length (chain (run start calls))) <? 0) with false
      by (symmetry; apply Z.ltb_ge; lia).
    rewrite Nat2Z.id, nth_error_app2 by lia.
    rewrite Nat.sub_diag. subst self'. reflexivity.
Qed.

(** *** getStarsByWalletAddress *)

(** X5.  [getStarsByWalletAddress] never throws and leaves the ledger
    alone; a payload is in its result exactly when its owner is the
    address asked for and a block of the chain carries it. *)
Theorem getStarsByWalletAddress_exact (address : string) self :
  exists stars,
    getStarsByWalletAddress address self = (Ok stars, self) /\
    forall (owner : string) (star : Star),
      In (owner, star) stars <->
      owner = address /\
      exists b, In b (chain self) /\ body b = Owned address star.
Proof.
  rewrite getStarsByWalletAddress_eq. eexists. split; [reflexivity|].
  intros owner star. rewrite filter_In, in_flat_map. cbn [fst].
  rewrite String.eqb_eq. split.
  - intros [(b & Hb & Hd) ->]. split; [reflexivity|].
    exists b. split; [assumption|].
    unfold getBData in Hd. destruct (body b) as [d|o s]; [destruct Hd|].
    destruct Hd as [[= -> ->]|[]]. reflexivity.
  - intros [-> (b & Hb & Hbody)]. split; [|reflexivity].
    exists b. split; [assumption|].
    unfold getBData. rewrite Hbody. now left.
Qed.

(** X6.  After [submitStar] resolved, the stars of the submitting address
    are those it had before followed by the new one, and the stars of
    every other address are as before. *)
Theorem getStarsByWalletAddress_after_submitStar
    address message signature (star : Star) (now : Z) self b self'
    (who : string) (before : list (string * Star)) :
  submitStar address message signature star now self = (Ok b, self') ->
  getStarsByWalletAddress who self = (Ok before, self) ->
  getStarsByWalletAddress who self' =
    (Ok (if String.eqb address who then before ++ [(address, star)]
         else before),
     self').
Proof.
  intros Hs. destruct (submitStar_Ok _ _ _ _ _ _ _ _ Hs) as (text & _ & Hb & ->).
  rewrite !getStarsByWalletAddress_eq. intros [= <-]. cbn [chain].
  rewrite flat_map_app, filter_app. cbn [flat_map].
  assert (Hd : getBData b = Some (address, star)).
  { unfold getBData. rewrite Hb, sealed_body. reflexivity. }
  rewrite Hd. cbn [app filter fst].
  destruct (String.eqb address who); [reflexivity|].
  now rewrite app_nil_r.
Qed.

(** X7.  Whenever [submitStar] fails, the error is the one of a failed
    registration, the chain is the one before the call, and every
    address has the stars it had. *)
Theorem submitStar_failure_keeps_chain
    address message signature (star : Star) (now : Z) self e self' :
  submitStar address message signature star now self = (Throw e, self') ->
  e = mkError "Error registering new Block!" /\
  chain self' = chain self /\
  forall who,
    fst (getStarsByWalletAddress who self') =
    fst (getStarsByWalletAddress who self).
Proof.
  intros Hs. destruct (submitStar_Throw _ _ _ _ _ _ _ _ Hs) as [He Hc].
  repeat split; [assumption..|].
  intros who. rewrite !getStarsByWalletAddress_eq. cbn [fst]. now rewrite Hc.
Qed.

(** *** The constructor and initializeChain *)

(** X8.  When the genesis block serialises, a new chain is exactly that
    block: height 0, the payload [{ data: 'Genesis Block' }], the
    clock's seconds as time, no previous hash, and the digest of its text
    as hash; the ledger's height is 0, [getBlockByHeight(0)] returns the
    genesis block and no address owns a star. *)
Theorem constructor_genesis (start : Z) (text : string) :
  JSON_stringify
    (mkBlock None (Some 0) (Genesis "Genesis Block")
       (Some (JS.timestamp start)) None) = Some text ->
  let genesis :=
    mkBlock (Some (SHA256 text)) (Some 0) (Genesis "Genesis Block")
      (Some (JS.timestamp start)) None in
  constructor (E := E) start = mkBlockchain [genesis] 0 /\
  getBlockByHeight 0 (constructor (E := E) start) =
    (Ok (Some genesis), constructor (E := E) start) /\
  forall who,
    getStarsByWalletAddress who (constructor (E := E) start) =
      (Ok [], constructor (E := E) start).
Proof.
  intros Ht genesis.
  assert (Hc : constructor (E := E) start = mkBlockchain [genesis] 0).
  { rewrite constructor_eq, _addBlock_eq.
    change (prepared (mkBlockchain [] (-1)) (new (Genesis "Genesis Block")) start)
      with (mkBlock (@None string) (Some 0) (@Genesis Star "Genesis Block")
              (Some (JS.timestamp start)) None).
    rewrite Ht. reflexivity. }
  rewrite Hc. repeat split.
Qed.

(** X9.  On every ledger built by the constructor and calls of
    [submitStar], [initializeChain] does nothing: no second genesis block
    is ever added, even when the first could not be sealed. *)
Theorem initializeChain_again (start : Z) (calls : list (Call Star)) (now : Z) :
  initializeChain now (run start calls) = (Ok tt, run start calls).
Proof.
  pose proof (run_height_nonneg start calls) as Hh.
  unfold initializeChain, bind, get, ret.
  replace (Blockchain.height (run start calls) =? -1) with false.
  - reflexivity.
  - symmetry. apply Z.eqb_neq. lia.
Qed.

(** *** The chain only grows *)

(** X10.  The interface is append-only: the chain after further calls of
    [submitStar] is the chain before them followed by at most one new
    block per call; no block is ever removed, replaced or reordered. *)
Theorem run_append_only (start : Z) (calls more : list (Call Star)) :
  exists suffix,
    chain (run start (calls ++ more)) = chain (run start calls) ++ suffix /\
    (length suffix <= length more)%nat.
Proof.
  induction more as [|c more IH] using rev_ind.
  - exists []. rewrite !app_nil_r. split; [reflexivity|simpl; lia].
  - destruct IH as (suffix & Hc & Hlen).
    rewrite app_assoc, run_snoc.
    destruct (exec_extends (run start (calls ++ more)) c) as (one & Ho & Hone).
    exists (suffix ++ one). rewrite Ho, Hc, <- app_assoc.
    split; [reflexivity|]. rewrite !length_app. simpl. lia.
Qed.

(** *** validateChain on an untouched ledger *)

(** X11.  On every ledger built by the constructor and calls of
    [submitStar], [validateChain] resolves with one [true] per block:
    every block passes its own check. *)
Theorem validateChain_untouched (start : Z) (calls : list (Call Star)) :
  validateChain (run start calls) =
  (Ok (repeat true (length (chain (run start calls)))), run start calls).
Proof.
  destruct (run_invariant start calls) as [_ Hs].
  now rewrite validateChain_eq, (validate_self_hashed _ Hs).
Qed.

(** *** Reading the challenge back *)

Lemma split_no_separator (sep : ascii) (s : string) :
  JS.String_includes sep s = false -> JS.String_split sep s = [s].
Proof.
  induction s as [|c s IH]; simpl; [reflexivity|].
  intros Hs. apply orb_false_elim in Hs as [Hc Hs].
  rewrite Hc, (IH Hs). reflexivity.
Qed.

Lemma split_at_separator (sep : ascii) (a rest : string) :
  JS.String_includes sep a = false ->
  JS.String_split sep (a ++ String sep rest) = a :: JS.String_split sep rest.
Proof.
  induction a as [|c a IH]; simpl.
  - intros _. now rewrite Ascii.eqb_refl.
  - intros Ha. apply orb_false_elim in Ha as [Hc Ha].
    rewrite Hc, (IH Ha). reflexivity.
Qed.

Lemma digit_not_colon (d : Z) :
  0 <= d < 10 -> Ascii.eqb (JS.digit d) ":" = false.
Proof.
  intros Hd.
  assert (Hc : d = 0 \/ d = 1 \/ d = 2 \/ d = 3 \/ d = 4 \/
               d = 5 \/ d = 6 \/ d = 7 \/ d = 8 \/ d = 9) by lia.
  repeat (destruct Hc as [->|Hc]; [reflexivity|]). now subst d.
Qed.

Lemma digits_no_colon (fuel : nat) :
  forall n acc,
    0 <= n -> JS.String_includes ":" acc = false ->
    JS.String_includes ":" (JS.digits fuel n acc) = false.
Proof.
  induction fuel as [|fuel IH]; intros n acc Hn Hacc; simpl.
  - exact Hacc.
  - assert (Hd : JS.String_includes ":" (String (JS.digit (n mod 10)) acc)
                 = false).
    { simpl. rewrite digit_not_colon, Hacc; [reflexivity|].
      apply Z.mod_pos_bound. lia. }
    destruct (n <? 10); [exact Hd|].
    apply IH; [apply Z.div_pos; lia|exact Hd].
Qed.

Lemma toString_no_colon (n : Z) :
  0 <= n -> JS.String_includes ":" (JS.Number_toString n) = false.
Proof.
  intros Hn. unfold JS.Number_toString.
  replace (n <? 0) with false by (symmetry; apply Z.ltb_ge; lia).
  now apply digits_no_colon.
Qed.

(** X12.  For an address without a colon, the message issued by
    [requestMessageOwnershipVerification] splits at its colons into
    exactly three fields, the address, the time and the tag, so that
    [message.split(':')[1]] is the time of issue: the clock's seconds,
    which its digits read back. *)
Theorem requestMessageOwnershipVerification_fields
    (address : string) (now : Z) self :
  1000 <= now ->
  JS.String_includes ":" address = false ->
  exists message,
    requestMessageOwnershipVerification address now self = (Ok message, self) /\
    JS.String_split ":" message =
      [address; JS.Number_toString (now / 1000); "starRegistry"%string] /\
    option_map JS.decimal_value (nth_error (JS.String_split ":" message) 1) =
      Some (Some (now / 1000)).
Proof.
  intros Hnow Haddr.
  assert (Hq : 0 <= now / 1000) by (apply Z.div_pos; lia).
  assert (Hsplit :
            JS.String_split ":"
              (address ++ ":" ++ JS.Number_toString (now / 1000) ++ ":starRegistry") =
            [address; JS.Number_toString (now / 1000); "starRegistry"%string]).
  { change (address ++ ":" ++ JS.Number_toString (now / 1000) ++ ":starRegistry")%string
      with (address ++ String ":" (JS.Number_toString (now / 1000) ++
                                   String ":" "starRegistry"))%string.
    rewrite (split_at_separator ":" address _ Haddr).
    rewrite (split_at_separator ":" _ _ (toString_no_colon _ Hq)).
    reflexivity. }
  eexists. split; [|split].
  - unfold requestMessageOwnershipVerification, ret.
    rewrite String_concat_three, (timestamp_seconds now Hnow). reflexivity.
  - exact Hsplit.
  - rewrite Hsplit. cbn [nth_error option_map].
    now rewrite decimal_value_toString.
Qed.

(** *** One block per accepted claim *)

(** X13.  When the genesis payload and the payloads of the calls
    serialise, the chain holds the genesis block and one block for each
    call whose signature was accepted, none for the others, and
    [getChainHeight] returns the number of accepted calls. *)
Theorem run_counts_accepted (start : Z) (calls : list (Call Star)) :
  serialises (Genesis "Genesis Block") ->
  Forall (fun c => serialises (payload c)) calls ->
  length (chain (run start calls)) = S (length (filter accepted calls)) /\
  getChainHeight (run start calls) =
    (Ok (Z.of_nat (length (filter accepted calls))), run start calls).
Proof.
  intros Hg Hcalls.
  assert (Hadd : forall data now self,
             serialises data ->
             exists b,
               _addBlock (new data) now self =
               (Ok b, mkBlockchain (chain self ++ [b])
                        (Z.of_nat (length (chain self))))).
  { intros data now self Hd. rewrite _addBlock_eq.
    destruct (JSON_stringify _) as [text|] eqn:Ht.
    - now eexists.
    - exfalso. apply (Hd _ (prepared_body self (new data) now) Ht). }
  enough (Hboth :
            length (chain (run start calls)) = S (length (filter accepted calls)) /\
            Blockchain.height (run start calls) =
              Z.of_nat (length (filter accepted calls))).
  { destruct Hboth as [Hlen Hh]. split; [exact Hlen|].
    unfold getChainHeight, bind, get, ret. now rewrite Hh. }
  induction calls as [|c calls IH] using rev_ind.
  - unfold run. cbn [fold_left filter length]. rewrite constructor_eq.
    destruct (Hadd (Genesis "Genesis Block") start (mkBlockchain [] (-1)) Hg)
      as [b ->].
    split; reflexivity.
  - apply Forall_app in Hcalls as [Hcalls Hc].
    destruct (IH Hcalls) as [Hlen Hh].
    rewrite run_snoc, filter_app, length_app. cbn [filter].
    destruct c as [address message signature star now].
    unfold exec. rewrite submitStar_eq. cbn [accepted].
    destruct (bitcoinMessage_verify message address signature) as [[|]|];
      cbn [snd length]; try (split; [lia|rewrite Hh; f_equal; lia]).
    destruct (Hadd (Owned address star) now (run start calls)) as [b ->].
    { apply (Forall_inv Hc). }
    cbn [snd chain Blockchain.height]. rewrite length_app. cbn [length].
    split; lia.
Qed.
End Queries.

(** ** The lookups at work on a concrete chain *)

Section QueryRuns.
Import BlockClass Blockchain Sample.

Example ledger3_stars :
  fst (getStarsByWalletAddress address1 ledger3) =
    Ok [(address1, star1); (address1, star2)] /\
  fst (getStarsByWalletAddress address2 ledger3) = Ok [(address2, star1)] /\
  fst (getChainHeight ledger3) = Ok 3.
Proof. repeat split; vm_compute; reflexivity. Qed.

Example ledger3_by_height :
  fst (getBlockByHeight 2 ledger3) = Ok (nth_error (chain ledger3) 2) /\
  option_map body (nth_error (chain ledger3) 2) = Some (Owned address2 star1) /\
  fst (getBlockByHeight 4 ledger3) = Ok None.
Proof. repeat split; vm_compute; reflexivity. Qed.

Lemma getBlockByHash_after_submitStar_witness :
  submitStar address1 message1 signature1 star1 soon ledger0 = (Ok block1, ledger1) /\
  exists h found,
    hash block1 = Some h /\
    getBlockByHash h ledger1 = (Ok (Some found), ledger1) /\
    hash found = Some h /\
    ((forall x, In x (chain ledger0) -> hash x <> Some h) -> found = block1).
Proof.
  assert (Hs : submitStar address1 message1 signature1 star1 soon ledger0
               = (Ok block1, ledger1)) by (vm_compute; reflexivity).
  split; [exact Hs|].
  exact (getBlockByHash_after_submitStar
           address1 message1 signature1 star1 soon ledger0 block1 ledger1 Hs).
Defined.

Lemma getBlockByHeight_is_index_witness :
  getBlockByHeight 2 ledger3 = (Ok (nth_error (chain ledger3) 2), ledger3) /\
  Z.of_nat (length (chain ledger3)) <= 4 /\
  getBlockByHeight 4 ledger3 = (Ok None, ledger3).
Proof.
  split; [|split].
  - exact (proj1 (getBlockByHeight_is_index created calls3 2)).
  - vm_compute. discriminate.
  - apply (proj2 (getBlockByHeight_is_index created calls3 4)).
    vm_compute. discriminate.
Defined.

Lemma getBlockByHeight_after_submitStar_witness :
  submitStar address1 message1 signature1 star1 soon (run created [])
    = (Ok block1, ledger1) /\
  exists n,
    getChainHeight ledger1 = (Ok n, ledger1) /\
    BlockClass.height block1 = Some n /\
    getBlockByHeight n ledger1 = (Ok (Some block1), ledger1).
Proof.
  assert (Hs : submitStar address1 message1 signature1 star1 soon (run created [])
               = (Ok block1, ledger1)) by (vm_compute; reflexivity).
  split; [exact Hs|].
  exact (getBlockByHeight_after_submitStar
           created [] address1 message1 signature1 star1 soon block1 ledger1 Hs).
Defined.

Lemma getStarsByWalletAddress_after_submitStar_witness :
  submitStar address1 message1 signature1 star1 soon ledger0 = (Ok block1, ledger1) /\
  getStarsByWalletAddress address1 ledger0 = (Ok [], ledger0) /\
  getStarsByWalletAddress address1 ledger1 =
    (Ok (if String.eqb address1 address1 then [] ++ [(address1, star1)] else []),
     ledger1).
Proof.
  assert (Hs : submitStar address1 message1 signature1 star1 soon ledger0
               = (Ok block1, ledger1)) by (vm_compute; reflexivity).
  assert (Hb : getStarsByWalletAddress address1 ledger0 = (Ok [], ledger0))
    by (vm_compute; reflexivity).
  split; [exact Hs|]. split; [exact Hb|].
  exact (getStarsByWalletAddress_after_submitStar
           address1 message1 signature1 star1 soon ledger0 block1 ledger1
           address1 [] Hs Hb).
Defined.

Lemma submitStar_failure_keeps_chain_witness :
  submitStar address1 message1 signature1 (BigInt 10) soon ledger1 =
    (Throw (mkError "Error registering new Block!"%string),
     mkBlockchain (chain ledger1) 2) /\
  chain (mkBlockchain (chain ledger1) 2) = chain ledger1 /\
  forall who,
    fst (getStarsByWalletAddress who (mkBlockchain (chain ledger1) 2)) =
    fst (getStarsByWalletAddress who ledger1).
Proof.
  assert (Hs : submitStar address1 message1 signature1 (BigInt 10) soon ledger1 =
               (Throw (mkError "Error registering new Block!"%string),
                mkBlockchain (chain ledger1) 2))
    by (vm_compute; reflexivity).
  split; [exact Hs|].
  exact (proj2 (submitStar_failure_keeps_chain
                  address1 message1 signature1 (BigInt 10) soon ledger1
                  (mkError "Error registering new Block!"%string)
                  (mkBlockchain (chain ledger1) 2) Hs)).
Defined.

Lemma constructor_genesis_witness :
  exists text,
    JSON_stringify
      (mkBlock None (Some 0) (Genesis "Genesis Block"%string)
         (Some (JS.timestamp created)) None) = Some text /\
    ledger0 =
      mkBlockchain
        [mkBlock (Some (SHA256 text)) (Some 0) (Genesis "Genesis Block"%string)
           (Some (JS.timestamp created)) None] 0.
Proof.
  destruct (JSON_stringify
              (mkBlock None (Some 0) (@Genesis star "Genesis Block"%string)
                 (Some (JS.timestamp created)) None)) as [text|] eqn:Ht.
  - exists text. split; [reflexivity|].
    exact (proj1 (constructor_genesis created text Ht)).
  - vm_compute in Ht. discriminate.
Defined.

Lemma run_counts_accepted_witness :
  length (chain ledger3) = S (length (filter accepted calls3)) /\
  getChainHeight ledger3 =
    (Ok (Z.of_nat (length (filter accepted calls3))), ledger3).
Proof.
  assert (Hcoord : forall d : Data star,
             (forall owner n, d <> Owned owner (BigInt n)) -> serialises d).
  { intros d Hd b Hb. cbn [JSON_stringify world]. unfold stringify.
    rewrite Hb. destruct d as [data|owner [dec ra story|n]]; cbn [json_data].
    - discriminate.
    - discriminate.
    - now destruct (Hd owner n). }
  apply (run_counts_accepted created calls3).
  - apply Hcoord. discriminate.
  - unfold calls3. repeat constructor; apply Hcoord; discriminate.
Defined.

Lemma requestMessageOwnershipVerification_fields_witness :
  1000 <= issued /\
  JS.String_includes ":" address1 = false /\
  exists message,
    requestMessageOwnershipVerification address1 issued ledger0
      = (Ok message, ledger0) /\
    JS.String_split ":" message =
      [address1; JS.Number_toString (issued / 1000); "starRegistry"%string] /\
    option_map JS.decimal_value (nth_error (JS.String_split ":" message) 1) =
      Some (Some (issued / 1000)).
Proof.
  assert (H1 : 1000 <= issued) by (vm_compute; discriminate).
  assert (H2 : JS.String_includes ":" address1 = false)
    by (vm_compute; reflexivity).
  split; [exact H1|]. split; [exact H2|].
  exact (requestMessageOwnershipVerification_fields address1 issued ledger0 H1 H2).
Defined.
End QueryRuns.
